(** * PaginationUI: the load-state reducer, the data loader and the
      client-side pagination of [src/components/PaginationUI.jsx].

    The component is embedded shallowly.  JavaScript values are modelled
    with the shapes the component gives them: [state.data] is a list of
    items, [state.error] is [null] or a string, page indices are integers.
    The asynchronous [fetchData] is a computation in a small completion
    monad (normal completion or throw), driven by a description of what the
    network answers. *)

From Stdlib Require QArith Qround.
From stdpp Require Import base list strings relations.
From Stdlib Require Import ZArith Lia.

Local Open Scope string_scope.
Local Open Scope Z_scope.

(** ** Values *)

(** An element of the fetched collection: [item.id] is the React key,
    [item.body] the text of the list entry. *)
Record Item := { id : Z; body : string }.

(** JavaScript truthiness of a value that is [null] or a string: [null]
    and the empty string are falsy, every other string is truthy. *)
Definition truthy (v : option string) : bool :=
  match v with
  | None => false
  | Some EmptyString => false
  | Some (String _ _) => true
  end.

(** ** The load state and its reducer (lines 4-21) *)

Record State := {
  data : list Item;
  isLoading : bool;
  error : option string;
}.

Definition initialState : State :=
  {| data := []; isLoading := false; error := None |}.

(** An action object: the [type] tag and the two payload fields that the
    reducer reads.  A field that the dispatching code leaves out is never
    read for that tag. *)
Module Action.
Record t := {
  type : string;
  data : list Item;
  error : option string;
}.
End Action.

Definition LOADING : Action.t :=
  {| Action.type := "LOADING"; Action.data := []; Action.error := None |}.
Definition OK (items : list Item) : Action.t :=
  {| Action.type := "OK"; Action.data := items; Action.error := None |}.
Definition ERROR (message : option string) : Action.t :=
  {| Action.type := "ERROR"; Action.data := []; Action.error := message |}.

Definition reducer (state : State) (action : Action.t) : State :=
  if String.eqb (Action.type action) "LOADING" then
    {| data := data state; isLoading := true; error := None |}
  else if String.eqb (Action.type action) "OK" then
    {| data := Action.data action; isLoading := false; error := None |}
  else if String.eqb (Action.type action) "ERROR" then
    {| data := data state; isLoading := false; error := Action.error action |}
  else state.

(** The state after dispatching a sequence of actions, oldest first. *)
Definition dispatchAll (state : State) (actions : list Action.t) : State :=
  fold_left reducer actions state.

(** ** The data loader (lines 23-40) *)

(** What a [try] block can complete with. *)
Record JsError := { message : string }.

Inductive Completion (A : Type) : Type :=
| Normal (value : A)
| Throw (err : JsError).
Arguments Normal {A} value.
Arguments Throw {A} err.

Definition bind {A B} (c : Completion A) (k : A → Completion B) : Completion B :=
  match c with
  | Normal a => k a
  | Throw e => Throw e
  end.

Definition try_catch {A} (body : Completion A) (handler : JsError → Completion A)
  : Completion A :=
  match body with
  | Normal a => Normal a
  | Throw e => handler e
  end.

Notation "'await' x <~ c ;; k" := (bind c (fun x => k))
  (at level 10, x name, c at level 99, k at level 200, only parsing).
Notation "'run' c ;; k" := (bind c (fun _ => k))
  (at level 10, c at level 99, k at level 200, only parsing).

(** A settled promise, seen from an [await]: fulfilled with a value or
    rejected with an error. *)
Definition Promise (A : Type) : Type := Completion A.

(** The response object: its [ok] flag and what [response.json()] settles
    with (a rejection stands for a body that is not JSON). *)
Record Response := {
  ok : bool;
  json : Promise (list Item);
}.

(** What [fetchData] returns. *)
Module Result.
Record t := {
  error : option string;
  data : list Item;
}.
End Result.

Definition fetch_failed_message : string :=
  "Could not fetch data from server. Please try again later.".

(** [fetchData], given what [fetch(url, headers)] settles with.  Everything
    thrown inside the [try] block is an error object with a [message]: the
    rejections of [fetch] and of [response.json()], and the [Error] built
    for a response that is not [ok]. *)
Definition fetchData (fetch : Promise Response) : Completion Result.t :=
  try_catch
    (await response <~ fetch ;;
     run (if negb (ok response)
          then Throw {| message := fetch_failed_message |}
          else Normal tt) ;;
     await resData <~ json response ;;
     Normal {| Result.error := None; Result.data := resData |})
    (fun err =>
       Normal {| Result.error := Some (message err); Result.data := [] |}).

(** ** The component (lines 42-134) *)

Definition itemsPerPage : Z := 10.

(** [Math.ceil] on an exact quotient.  An array length is below 2^32, so
    the floating-point quotient by 10 has the same ceiling as the exact
    one. *)
Definition Math_ceil (q : QArith_base.Q) : Z := Qround.Qceiling q.

Definition totalPages (state : State) : Z :=
  Math_ceil (QArith_base.Qdiv
               (QArith_base.inject_Z (Z.of_nat (length (data state))))
               (QArith_base.inject_Z itemsPerPage)).

(** [Array.prototype.slice] with integer arguments: a negative bound counts
    from the end, both bounds are clamped to the array, and an empty range
    gives the empty array. *)
Definition slice {A} (l : list A) (start end_ : Z) : list A :=
  let len := Z.of_nat (length l) in
  let k := if start <? 0 then Z.max (len + start) 0 else Z.min start len in
  let final := if end_ <? 0 then Z.max (len + end_) 0 else Z.min end_ len in
  take (Z.to_nat (Z.max (final - k) 0)) (drop (Z.to_nat k) l).

Definition currentPageItems (state : State) (pagination : Z) : list Item :=
  slice (data state) ((pagination - 1) * itemsPerPage) (pagination * itemsPerPage).

(** A handler either calls [setPagination] with a value ([Some]) or leaves
    the page index alone ([None], the short-circuited [&&]). *)
Definition handlePrevious (pagination : Z) : option Z :=
  if 1 <? pagination then Some (pagination - 1) else None.

Definition handleNext (pagination total : Z) : option Z :=
  if pagination <? total then Some (pagination + 1) else None.

Definition handlePageClick (num : Z) : option Z := Some num.

(** The page index after a handler has run. *)
Definition setPagination (pagination : Z) (update : option Z) : Z :=
  default pagination update.

(** The rendered tree, as far as the state decides it. *)
Inductive ButtonText := Previous | Next | PageNumber (n : Z).

Record Button := {
  text : ButtonText;
  marked : bool;        (* the conditional class: disabled or active *)
  disabled : bool;      (* the [disabled] attribute *)
  onClick : option Z;
}.

Inductive Element :=
| LoadingText
| ErrorText (text : string)
| ListAndControls (items : list Item) (buttons : list Button).

Definition previousButton (pagination : Z) : Button :=
  {| text := Previous;
     marked := pagination =? 1;
     disabled := pagination =? 1;
     onClick := handlePrevious pagination |}.

Definition nextButton (pagination total : Z) : Button :=
  {| text := Next;
     marked := pagination =? total;
     disabled := pagination =? total;
     onClick := handleNext pagination total |}.

(** [Array.from({ length: totalPages }, (_, index) => ...)]. *)
Definition numberedButtons (pagination total : Z) : list Button :=
  map (fun index : nat =>
         {| text := PageNumber (Z.of_nat index + 1);
            marked := pagination =? Z.of_nat index + 1;
            disabled := false;
            onClick := handlePageClick (Z.of_nat index + 1) |})
      (seq 0 (Z.to_nat total)).

Definition render (state : State) (pagination : Z) : list Element :=
  (if isLoading state then [LoadingText] else [])
  ++ match error state with
     | Some text => if truthy (Some text) then [ErrorText text] else []
     | None => []
     end
  ++ (if negb (isLoading state) && negb (truthy (error state))
      then [ListAndControls
              (currentPageItems state pagination)
              (previousButton pagination
               :: numberedButtons pagination (totalPages state)
               ++ [nextButton pagination (totalPages state)])]
      else []).

(** A click on a rendered button: a disabled button does not fire. *)
Definition click (b : Button) (pagination : Z) : Z :=
  if disabled b then pagination else setPagination pagination (onClick b).

(** ** The mounted component as a transition system *)

(** How far the mount effect ([handleFetch], lines 54-67) has got. *)
Inductive Effect := NotStarted | Awaiting | Settled.

Record View := {
  state : State;
  pagination : Z;
  effect : Effect;
}.

Definition mount : View :=
  {| state := initialState; pagination := 1; effect := NotStarted |}.

(** The action [handleFetch] dispatches for a result of [fetchData]. *)
Definition settleAction (r : Result.t) : Action.t :=
  if truthy (Result.error r) then ERROR (Result.error r) else OK (Result.data r).

Inductive step : View → View → Prop :=
| step_loading v :
    effect v = NotStarted →
    step v {| state := reducer (state v) LOADING;
              pagination := pagination v;
              effect := Awaiting |}
| step_settle v fetch r :
    effect v = Awaiting →
    fetchData fetch = Normal r →
    step v {| state := reducer (state v) (settleAction r);
              pagination := pagination v;
              effect := Settled |}
| step_previous v :
    step v {| state := state v;
              pagination := setPagination (pagination v)
                              (handlePrevious (pagination v));
              effect := effect v |}
| step_next v :
    step v {| state := state v;
              pagination := setPagination (pagination v)
                              (handleNext (pagination v) (totalPages (state v)));
              effect := effect v |}
| step_page_click v n :
    1 ≤ n ≤ totalPages (state v) →
    step v {| state := state v;
              pagination := setPagination (pagination v) (handlePageClick n);
              effect := effect v |}.

Definition reachable : View → Prop := rtc step mount.

(** ** Invariants and sample data used in the statements *)

(** While loading there is no error: every transition keeps this. *)
Definition loading_clears_error (s : State) : Prop :=
  isLoading s = true → error s = None.


(** The page index is a page that exists, or 1 when there is none. *)
Definition page_in_range (v : View) : Prop :=
  1 ≤ pagination v ≤ Z.max 1 (totalPages (state v)).

(** Until the fetch has settled there are no items. *)
Definition no_items_before_settled (v : View) : Prop :=
  effect v ≠ Settled → data (state v) = [].

(** Twenty-five posts, numbered from 1. *)
Definition twentyFiveItems : list Item :=
  map (fun k : nat => {| id := Z.of_nat k; body := "post" |}) (seq 1 25).

(** A run of the component: the effect starts, the fetch settles with 25
    items, the user presses Next. *)
Definition secondPageView : View :=
  {| state := {| data := twentyFiveItems; isLoading := false; error := None |};
     pagination := 2;
     effect := Settled |}.

(** ** The mount effect and the handlers as functions *)

(** [handleFetch] (lines 55-64) run to its end on a load state: it
    dispatches LOADING, awaits [fetchData] and dispatches the action chosen
    from the result. *)
Definition handleFetch (state : State) (fetch : Promise Response)
  : Completion State :=
  let loading := reducer state LOADING in
  await r <~ fetchData fetch ;;
  Normal (reducer loading (settleAction r)).

(** The page index after [handlePrevious], and after [handleNext] with the
    given page count. *)
Definition pressPrevious (pagination : Z) : Z :=
  setPagination pagination (handlePrevious pagination).

Definition pressNext (total pagination : Z) : Z :=
  setPagination pagination (handleNext pagination total).

(** What the list shows on each page that has a numbered control, in the
    order of the controls. *)
Definition allPages (state : State) : list (list Item) :=
  map (fun index : nat => currentPageItems state (Z.of_nat index + 1))
      (seq 0 (Z.to_nat (totalPages state))).

(** ** The load state along the life of the component *)

(** What the load state is at each stage of the mount effect: untouched
    before it starts, loading with no items while the fetch is awaited, and
    afterwards not loading, with either no error or a truthy error and no
    items. *)
Definition lifecycle (v : View) : Prop :=
  match effect v with
  | NotStarted => state v = initialState
  | Awaiting => state v = {| data := []; isLoading := true; error := None |}
  | Settled =>
      isLoading (state v) = false
      ∧ (error (state v) = None
         ∨ (truthy (error (state v)) = true ∧ data (state v) = []))
  end.

(** The component while the fetch is awaited, and after a fetch that was
    rejected. *)
Definition awaitingView : View :=
  {| state := {| data := []; isLoading := true; error := None |};
     pagination := 1;
     effect := Awaiting |}.

Definition failedView : View :=
  {| state := {| data := []; isLoading := false; error := Some "Failed to fetch" |};
     pagination := 1;
     effect := Settled |}.

(** * Properties *)

(** ** Arithmetic of the page count *)

Lemma totalPages_div (s : State) :
  totalPages s = - ((- Z.of_nat (length (data s))) / 10).
Proof.
  unfold totalPages, Math_ceil, Qround.Qceiling, Qround.Qfloor.
  cbn. now rewrite Z.mul_1_r.
Qed.

Lemma totalPages_bounds (s : State) :
  10 * (totalPages s - 1) < Z.of_nat (length (data s)) ≤ 10 * totalPages s.
Proof.
  rewrite totalPages_div.
  pose proof (Z.div_mod (- Z.of_nat (length (data s))) 10 ltac:(lia)) as Hdiv.
  pose proof (Z.mod_pos_bound (- Z.of_nat (length (data s))) 10 ltac:(lia)).
  lia.
Qed.

Lemma totalPages_nonneg (s : State) : 0 ≤ totalPages s.
Proof. pose proof (totalPages_bounds s). lia. Qed.

Lemma totalPages_no_data (s : State) : data s = [] → totalPages s = 0.
Proof.
  intros Hdata. pose proof (totalPages_bounds s) as Hb.
  rewrite Hdata in Hb. cbn in Hb. lia.
Qed.

(** ** The reducer *)

Ltac reducer_cases action :=
  unfold reducer;
  destruct (String.eqb_spec (Action.type action) "LOADING") as [Htype | Hnot_loading];
  [| destruct (String.eqb_spec (Action.type action) "OK") as [Htype | Hnot_ok];
     [| destruct (String.eqb_spec (Action.type action) "ERROR") as [Htype | Hnot_error]]].

(** The three recognised transitions, as the table of the reducer reads. *)
Lemma reducer_LOADING (s : State) :
  reducer s LOADING = {| data := data s; isLoading := true; error := None |}.
Proof. reflexivity. Qed.

Lemma reducer_OK (s : State) (items : list Item) :
  reducer s (OK items) = {| data := items; isLoading := false; error := None |}.
Proof. reflexivity. Qed.

Lemma reducer_ERROR (s : State) (msg : option string) :
  reducer s (ERROR msg) = {| data := data s; isLoading := false; error := msg |}.
Proof. reflexivity. Qed.

Lemma dispatchAll_snoc (s : State) (actions : list Action.t) (a : Action.t) :
  dispatchAll s (actions ++ [a]) = reducer (dispatchAll s actions) a.
Proof. unfold dispatchAll. now rewrite fold_left_app. Qed.

Lemma reducer_loading_clears_error (s : State) (a : Action.t) :
  loading_clears_error s → loading_clears_error (reducer s a).
Proof.
  unfold loading_clears_error. intros Hs.
  reducer_cases a; cbn; try done.
Qed.

Lemma dispatchAll_loading_clears_error (actions : list Action.t) :
  loading_clears_error (dispatchAll initialState actions).
Proof.
  induction actions as [| a actions IH] using rev_ind.
  - intros Hl. reflexivity.
  - rewrite dispatchAll_snoc. now apply reducer_loading_clears_error.
Qed.

(** C8: for every state [s] and every action whose [type] is none of
    LOADING, OK and ERROR, the reducer returns [s] itself: the default case
    of the switch is the identity. *)
Theorem reducer_unrecognized_identity (s : State) (a : Action.t) :
  Action.type a ≠ "LOADING" →
  Action.type a ≠ "OK" →
  Action.type a ≠ "ERROR" →
  reducer s a = s.
Proof.
  intros Hl Ho He. reducer_cases a; congruence.
Qed.

Lemma reducer_unrecognized_identity_witness :
  reducer {| data := [ {| id := 1; body := "a" |} ];
             isLoading := true; error := Some "stale" |}
          {| Action.type := "RESET"; Action.data := [];
             Action.error := Some "ignored" |}
  = {| data := [ {| id := 1; body := "a" |} ];
       isLoading := true; error := Some "stale" |}.
Proof.
  apply reducer_unrecognized_identity; cbn; discriminate.
Defined.

(** C7: in every load state reached from the initial one by reducer
    transitions, [isLoading] and [error] are not both truthy, and the
    component renders exactly one of its three blocks: the loading text
    (while loading), the error text (a truthy error) or the list with its
    controls (otherwise). *)
Theorem render_exactly_one (actions : list Action.t) (p : Z) :
  let s := dispatchAll initialState actions in
  isLoading s && truthy (error s) = false
  ∧ (if isLoading s then render s p = [LoadingText]
     else if truthy (error s)
          then ∃ msg, error s = Some msg ∧ render s p = [ErrorText msg]
          else render s p =
               [ListAndControls
                  (currentPageItems s p)
                  (previousButton p
                   :: numberedButtons p (totalPages s)
                   ++ [nextButton p (totalPages s)])]).
Proof.
  intros s.
  pose proof (dispatchAll_loading_clears_error actions) as Hinv.
  fold s in Hinv. unfold loading_clears_error in Hinv.
  unfold render.
  destruct (isLoading s) eqn:Hload.
  - rewrite (Hinv eq_refl). cbn. done.
  - destruct (error s) as [msg |] eqn:Herr; cbn [andb negb app].
    + destruct (truthy (Some msg)) eqn:Ht; cbn; eauto.
    + cbn. done.
Qed.






(** ** The data loader *)

(** C5: [fetchData] always completes normally with a result, whatever the
    network does.  A response without success status gives the fixed
    message; a rejected [fetch] or a rejected [response.json()] gives the
    message of that failure; a parsed body gives a success result holding
    it. *)
Theorem fetchData_result :
  (∀ fetch, ∃ r, fetchData fetch = Normal r)
  ∧ (∀ body,
       fetchData (Normal {| ok := false; json := body |}) =
       Normal {| Result.error :=
                   Some "Could not fetch data from server. Please try again later.";
                 Result.data := [] |})
  ∧ (∀ err,
       fetchData (Throw err) =
       Normal {| Result.error := Some (message err); Result.data := [] |})
  ∧ (∀ err,
       fetchData (Normal {| ok := true; json := Throw err |}) =
       Normal {| Result.error := Some (message err); Result.data := [] |})
  ∧ (∀ resData,
       fetchData (Normal {| ok := true; json := Normal resData |}) =
       Normal {| Result.error := None; Result.data := resData |}).
Proof.
  repeat split; try reflexivity.
  intros [[[] [resData | err]] | err]; cbn; eauto.
Qed.

(** C10: whenever [fetchData] returns a result whose error is not null, the
    result is exactly an error message paired with the empty list. *)
Theorem fetchData_error_has_no_data (fetch : Promise Response) (r : Result.t) :
  fetchData fetch = Normal r →
  Result.error r ≠ None →
  ∃ msg, r = {| Result.error := Some msg; Result.data := [] |}.
Proof.
  destruct fetch as [[[] [resData | err]] | err]; cbn;
    intros [= <-]; cbn; intros Herr; try done; eauto.
Qed.

Lemma fetchData_error_has_no_data_witness :
  ∃ msg,
    {| Result.error := Some "Failed to fetch"; Result.data := [] |}
    = {| Result.error := Some msg; Result.data := [] |}.
Proof.
  apply (fetchData_error_has_no_data (Throw {| message := "Failed to fetch" |}));
    [reflexivity | discriminate].
Defined.

(** ** Slicing *)

Section Slice.
Context {A : Type}.
Implicit Types (l : list A) (i : nat).

(** With both bounds non-negative, [slice] holds the elements at the
    positions from [start] up to, not including, [end_], as far as the
    array has them. *)
Lemma slice_lookup l (start end_ : Z) i :
  0 ≤ start → 0 ≤ end_ →
  slice l start end_ !! i =
  if decide (Z.of_nat i < end_ - start)
  then l !! (Z.to_nat start + i)%nat
  else None.
Proof.
  intros Hs He. unfold slice.
  destruct (Z.ltb_spec start 0); [lia |].
  destruct (Z.ltb_spec end_ 0); [lia |].
  set (len := Z.of_nat (length l)).
  assert (Hlen : len = Z.of_nat (length l)) by reflexivity.
  clearbody len.
  destruct (decide (Z.of_nat i < end_ - start)) as [Hin | Hout].
  - destruct (decide (i < Z.to_nat (Z.max (Z.min end_ len - Z.min start len) 0))%nat)
      as [Hlt | Hge].
    + rewrite lookup_take_lt by done. rewrite lookup_drop.
      destruct (decide (start ≤ len)).
      * f_equal. lia.
      * rewrite !lookup_ge_None_2; [done | lia | lia].
    + rewrite lookup_take_ge by lia.
      symmetry. apply lookup_ge_None_2. lia.
  - apply lookup_take_ge. lia.
Qed.

Lemma slice_length l (start end_ : Z) :
  0 ≤ start → 0 ≤ end_ →
  Z.of_nat (length (slice l start end_)) =
  Z.max (Z.min end_ (Z.of_nat (length l)) - Z.min start (Z.of_nat (length l))) 0.
Proof.
  intros Hs He. unfold slice.
  destruct (Z.ltb_spec start 0); [lia |].
  destruct (Z.ltb_spec end_ 0); [lia |].
  rewrite length_take, length_drop. lia.
Qed.
End Slice.

(** C3: on a valid page [p] of a loaded list of [n] items, the visible slice
    holds exactly the items at positions [(p-1)*10 .. p*10 - 1] that the list
    has; it has at most 10 items, exactly 10 before the last page, and
    [n - (totalPages-1)*10] on the last page. *)
Theorem currentPageItems_window (s : State) (p : Z) :
  1 ≤ p ≤ totalPages s →
  let n := Z.of_nat (length (data s)) in
  (∀ i : nat,
     currentPageItems s p !! i =
     if decide (i < 10)%nat
     then data s !! (Z.to_nat ((p - 1) * 10) + i)%nat
     else None)
  ∧ Z.of_nat (length (currentPageItems s p)) ≤ 10
  ∧ (p < totalPages s → Z.of_nat (length (currentPageItems s p)) = 10)
  ∧ (p = totalPages s →
     Z.of_nat (length (currentPageItems s p)) = n - (totalPages s - 1) * 10).
Proof.
  intros Hp n. pose proof (totalPages_bounds s) as Hb. fold n in Hb.
  unfold currentPageItems, itemsPerPage.
  split.
  - intros i. rewrite slice_lookup by lia.
    destruct (decide (i < 10)%nat), (decide (Z.of_nat i < p * 10 - (p - 1) * 10));
      try lia; done.
  - rewrite slice_length by lia. fold n. lia.
Qed.

Lemma currentPageItems_window_witness :
  let s := {| data := twentyFiveItems; isLoading := false; error := None |} in
  (∀ i : nat,
     currentPageItems s 3 !! i =
     if decide (i < 10)%nat
     then data s !! (Z.to_nat ((3 - 1) * 10) + i)%nat
     else None)
  ∧ Z.of_nat (length (currentPageItems s 3)) ≤ 10
  ∧ (3 < totalPages s → Z.of_nat (length (currentPageItems s 3)) = 10)
  ∧ (3 = totalPages s →
     Z.of_nat (length (currentPageItems s 3)) = 25 - (totalPages s - 1) * 10).
Proof.
  apply (currentPageItems_window
           {| data := twentyFiveItems; isLoading := false; error := None |} 3).
  vm_compute. split; discriminate.
Defined.

(** The scenario of 25 loaded items: three pages, items 1-10 on the first,
    items 21-25 on the third. *)
Example twentyFiveItems_pages :
  let s := {| data := twentyFiveItems; isLoading := false; error := None |} in
  totalPages s = 3
  ∧ map id (currentPageItems s 1) = [1; 2; 3; 4; 5; 6; 7; 8; 9; 10]
  ∧ map id (currentPageItems s 3) = [21; 22; 23; 24; 25]
  ∧ disabled (nextButton 3 (totalPages s)) = true.
Proof. vm_compute. done. Qed.

(** ** Page count and controls *)

Lemma numberedButtons_length (p total : Z) :
  length (numberedButtons p total) = Z.to_nat total.
Proof. unfold numberedButtons. now rewrite length_map, length_seq. Qed.

(** The numbered control at position [index] is the one for page
    [index + 1]: it sets the page index to that page and is marked active
    on it. *)
Lemma numberedButtons_lookup (p total : Z) (index : nat) :
  Z.of_nat index < total →
  numberedButtons p total !! index =
  Some {| text := PageNumber (Z.of_nat index + 1);
          marked := p =? Z.of_nat index + 1;
          disabled := false;
          onClick := Some (Z.of_nat index + 1) |}.
Proof.
  intros Hlt. unfold numberedButtons.
  change (map ?f ?l) with (f <$> l).
  rewrite list_lookup_fmap, lookup_seq_lt by lia. reflexivity.
Qed.

(** C4: the page count is the ceiling of [n / 10], the least integer [k]
    with [n <= 10 * k], and there is one numbered control per page; with no
    items the page count is 0 and no numbered control is rendered. *)
Theorem totalPages_ceiling (s : State) (p : Z) :
  let n := Z.of_nat (length (data s)) in
  (n ≤ 10 * totalPages s ∧ ∀ k, n ≤ 10 * k → totalPages s ≤ k)
  ∧ Z.of_nat (length (numberedButtons p (totalPages s))) = totalPages s
  ∧ (let empty := {| data := []; isLoading := isLoading s; error := error s |} in
     totalPages empty = 0 ∧ numberedButtons p (totalPages empty) = []).
Proof.
  intros n. pose proof (totalPages_bounds s) as Hb. fold n in Hb.
  repeat split.
  - lia.
  - intros k Hk. lia.
  - rewrite numberedButtons_length. lia.
Qed.

(** The disabled attributes of the edge controls. *)
Lemma previousButton_disabled (p : Z) :
  disabled (previousButton p) = true ↔ p = 1.
Proof. cbn. apply Z.eqb_eq. Qed.

Lemma nextButton_disabled (p total : Z) :
  disabled (nextButton p total) = true ↔ p = total.
Proof. cbn. apply Z.eqb_eq. Qed.

(** C1 on an empty list: with the data loaded and no items, the page count
    is 0 and the page index 1; Previous is disabled and no numbered control
    is rendered, but the Next control is rendered with its disabled attribute
    false, although [handleNext] has no page to go to. *)
Theorem next_enabled_without_pages :
  let s := {| data := []; isLoading := false; error := None |} in
  totalPages s = 0
  ∧ render s 1 =
    [ListAndControls []
       [ {| text := Previous; marked := true; disabled := true;
            onClick := None |};
         {| text := Next; marked := false; disabled := false;
            onClick := None |} ]]
  ∧ disabled (nextButton 1 (totalPages s)) = false
  ∧ handleNext 1 (totalPages s) = None.
Proof. vm_compute. done. Qed.

(** C9: the handlers carry their own guards.  On a page index [p <= 1]
    [handlePrevious] does not set the page index, and on [p >= totalPages]
    [handleNext] does not; this covers the empty list, where the page index
    is 1, the page count 0 and the Next control is not disabled. *)
Theorem handlers_guarded :
  (∀ p, p ≤ 1 →
        handlePrevious p = None
        ∧ setPagination p (handlePrevious p) = p)
  ∧ (∀ p total, total ≤ p →
        handleNext p total = None
        ∧ setPagination p (handleNext p total) = p)
  ∧ (disabled (nextButton 1 0) = false
     ∧ click (nextButton 1 0) 1 = 1).
Proof.
  split; [| split].
  - intros p Hp. unfold handlePrevious.
    destruct (Z.ltb_spec 1 p); [lia | done].
  - intros p total Hp. unfold handleNext.
    destruct (Z.ltb_spec p total); [lia | done].
  - done.
Qed.

Lemma handlers_guarded_witness :
  (handlePrevious 1 = None ∧ setPagination 1 (handlePrevious 1) = 1)
  ∧ (handleNext 3 3 = None ∧ setPagination 3 (handleNext 3 3) = 3).
Proof.
  split.
  - apply (proj1 handlers_guarded 1). lia.
  - apply (proj1 (proj2 handlers_guarded) 3 3). lia.
Defined.

(** ** The page index stays in range *)

Lemma step_invariant (v v' : View) :
  step v v' →
  page_in_range v ∧ no_items_before_settled v →
  page_in_range v' ∧ no_items_before_settled v'.
Proof.
  unfold page_in_range, no_items_before_settled.
  intros Hstep [Hrange Hdata].
  destruct Hstep as [v Heff | v fetch r Heff Hr | v | v | v n Hn]; cbn.
  - split; [| intros _]; rewrite ?Heff in Hdata; auto with congruence.
  - split; [| done].
    rewrite Heff in Hdata. specialize (Hdata ltac:(done)).
    rewrite (totalPages_no_data _ Hdata) in Hrange. lia.
  - split; [| done]. unfold handlePrevious.
    destruct (Z.ltb_spec 1 (pagination v)); cbn; lia.
  - split; [| done]. unfold handleNext.
    destruct (Z.ltb_spec (pagination v) (totalPages (state v))); cbn; lia.
  - split; [| done]. lia.
Qed.

Lemma reachable_invariant (v : View) :
  reachable v → page_in_range v ∧ no_items_before_settled v.
Proof.
  unfold reachable. revert v. apply rtc_ind_r.
  - split; [| done]. unfold page_in_range. cbn. lia.
  - intros v v' _ Hstep IH. eauto using step_invariant.
Qed.

(** C6: from the mounted component (page index 1, no items), every view
    reached by the navigation handlers, by clicks on rendered numbered
    controls and by the one load of the mount effect keeps
    [1 <= pagination <= max 1 totalPages]. *)
Theorem pagination_in_range (v : View) :
  reachable v →
  1 ≤ pagination v ≤ Z.max 1 (totalPages (state v)).
Proof. intros Hreach. apply (reachable_invariant v Hreach). Qed.

Lemma pagination_in_range_witness :
  1 ≤ pagination secondPageView
    ≤ Z.max 1 (totalPages (state secondPageView)).
Proof.
  apply pagination_in_range. unfold reachable.
  eapply rtc_l; [apply step_loading; reflexivity |].
  eapply rtc_l;
    [apply (step_settle _ (Normal {| ok := true; json := Normal twentyFiveItems |})
              {| Result.error := None; Result.data := twentyFiveItems |});
     reflexivity |].
  eapply rtc_l; [apply step_next |].
  apply rtc_refl.
Defined.

(** * Further properties of the component *)

(** ** Pages and items *)

Lemma currentPageItems_take_drop (s : State) (p : Z) :
  1 ≤ p →
  currentPageItems s p = take 10 (drop (Z.to_nat ((p - 1) * 10)) (data s)).
Proof.
  intros Hp. unfold currentPageItems, itemsPerPage.
  apply list_eq. intros i. rewrite slice_lookup by lia.
  destruct (decide (Z.of_nat i < p * 10 - (p - 1) * 10)).
  - rewrite lookup_take_lt by lia. now rewrite lookup_drop.
  - rewrite lookup_take_ge by lia. done.
Qed.

Lemma concat_chunks {A} (l : list A) (k : nat) :
  concat (map (fun index : nat => take 10 (drop (index * 10) l)) (seq 0 k))
  = take (k * 10) l.
Proof.
  induction k as [| k IH]; [now rewrite take_0 |].
  rewrite seq_S, map_app, concat_app, IH. cbn [map concat Nat.add].
  rewrite app_nil_r, take_take_drop. f_equal. lia.
Qed.

(** X1: the pages cover the list: the items of pages 1 to [totalPages], one
    page after the other, are exactly the loaded items in their order, so
    every item is shown on one page and none is shown twice. *)
Theorem allPages_concat (s : State) :
  concat (allPages s) = data s.
Proof.
  unfold allPages.
  rewrite (map_ext _ (fun index : nat => take 10 (drop (index * 10) (data s)))).
  - rewrite concat_chunks. apply take_ge.
    pose proof (totalPages_bounds s). lia.
  - intros index. rewrite currentPageItems_take_drop by lia.
    do 2 f_equal. lia.
Qed.

(** X2: a page index past the last page, and the page index 0, show no items. *)
Theorem currentPageItems_out_of_range (s : State) (p : Z) :
  p = 0 ∨ totalPages s < p →
  currentPageItems s p = [].
Proof.
  intros [-> | Hp].
  - unfold currentPageItems, slice, itemsPerPage.
    apply length_zero_iff_nil. rewrite length_take.
    destruct (Z.ltb_spec ((0 - 1) * 10) 0), (Z.ltb_spec (0 * 10) 0); lia.
  - pose proof (totalPages_bounds s). pose proof (totalPages_nonneg s).
    rewrite currentPageItems_take_drop by lia.
    rewrite drop_ge by lia. done.
Qed.

Lemma currentPageItems_out_of_range_witness :
  currentPageItems
    {| data := twentyFiveItems; isLoading := false; error := None |} 4 = [].
Proof.
  apply currentPageItems_out_of_range. right. vm_compute. reflexivity.
Defined.

(** X3: no page that has a numbered control is blank: on every page from 1 to
    [totalPages] the list shows at least one item. *)
Theorem currentPageItems_nonempty (s : State) (p : Z) :
  1 ≤ p ≤ totalPages s →
  currentPageItems s p ≠ [].
Proof.
  intros Hp Hnil. pose proof (totalPages_bounds s) as Hb.
  assert (Hlen : Z.of_nat (length (currentPageItems s p)) = 0) by now rewrite Hnil.
  unfold currentPageItems, itemsPerPage in Hlen.
  rewrite slice_length in Hlen by lia. lia.
Qed.

Lemma currentPageItems_nonempty_witness :
  currentPageItems
    {| data := twentyFiveItems; isLoading := false; error := None |} 3 ≠ [].
Proof.
  apply currentPageItems_nonempty. vm_compute. split; discriminate.
Defined.

(** X4: whatever the page index is, also zero or negative, the list shows at
    most 10 items, and they are loaded items in their original order. *)
Theorem currentPageItems_bounded (s : State) (p : Z) :
  Z.of_nat (length (currentPageItems s p)) ≤ 10
  ∧ currentPageItems s p `sublist_of` data s.
Proof.
  unfold currentPageItems, slice, itemsPerPage. split.
  - rewrite length_take, length_drop.
    destruct (Z.ltb_spec ((p - 1) * 10) 0), (Z.ltb_spec (p * 10) 0); lia.
  - etrans; [apply sublist_take | apply sublist_drop].
Qed.

(** ** The reducer under repeated and unrelated actions *)

(** X5: dispatching the same action twice in a row gives the same state as
    dispatching it once, whatever the action is. *)
Theorem reducer_idempotent (s : State) (a : Action.t) :
  reducer (reducer s a) a = reducer s a.
Proof. reducer_cases a; reflexivity. Qed.

(** X6: only OK replaces the items: a sequence of actions none of which has the
    type OK leaves [data] as it was, from any state. *)
Theorem dispatchAll_keeps_data (s : State) (actions : list Action.t) :
  Forall (fun a => Action.type a ≠ "OK") actions →
  data (dispatchAll s actions) = data s.
Proof.
  induction actions as [| a actions IH] using rev_ind; [done |].
  intros [Hactions Ha]%Forall_app. apply Forall_cons in Ha as [Ha _].
  rewrite dispatchAll_snoc, <- (IH Hactions).
  reducer_cases a; try done.
Qed.

Lemma dispatchAll_keeps_data_witness :
  data (dispatchAll
          {| data := twentyFiveItems; isLoading := false; error := None |}
          [LOADING; ERROR (Some "Failed to fetch");
           {| Action.type := "RESET"; Action.data := []; Action.error := None |}])
  = twentyFiveItems.
Proof.
  apply (dispatchAll_keeps_data
           {| data := twentyFiveItems; isLoading := false; error := None |}).
  repeat constructor; cbn; discriminate.
Defined.

(** ** The data loader, read backwards *)

(** X7: [fetchData] reports success only for a response that was [ok] and whose
    body parsed, and then its data is exactly that body: no failure comes
    back with a null error. *)
Theorem fetchData_success_iff (fetch : Promise Response) (r : Result.t) :
  fetchData fetch = Normal r →
  Result.error r = None
  ↔ ∃ response, fetch = Normal response
                ∧ ok response = true
                ∧ json response = Normal (Result.data r).
Proof.
  destruct fetch as [[[] [resData | err]] | err]; cbn; intros [= <-]; cbn;
    split; try done; eauto; intros (response & Hfetch & Hok & Hjson);
    inversion Hfetch; subst; cbn in *; done.
Qed.

Lemma fetchData_success_iff_witness :
  Result.error {| Result.error := None; Result.data := twentyFiveItems |} = None
  ↔ ∃ response,
      Normal {| ok := true; json := Normal twentyFiveItems |} = Normal response
      ∧ ok response = true
      ∧ json response
        = Normal (Result.data {| Result.error := None; Result.data := twentyFiveItems |}).
Proof.
  apply (fetchData_success_iff
           (Normal {| ok := true; json := Normal twentyFiveItems |})).
  reflexivity.
Defined.

(** ** The mount effect *)

(** X8: whatever the network does, [handleFetch] runs to its end and leaves the
    state not loading; the state then either has no error, or has a truthy
    error and the items it had before. *)
Theorem handleFetch_settles (s : State) (fetch : Promise Response) :
  ∃ s', handleFetch s fetch = Normal s'
        ∧ isLoading s' = false
        ∧ (error s' = None
           ∨ (truthy (error s') = true ∧ data s' = data s)).
Proof.
  unfold handleFetch, settleAction.
  destruct fetch as [[[] [resData | err]] | err]; cbn;
    try (destruct (message err) as [| c rest]; cbn);
    (eexists; split; [reflexivity | cbn; auto]).
Qed.

(** X9: a response without success status ends in the fixed message, shown
    alone on the screen, whatever the body and the page index are. *)
Theorem handleFetch_http_failure (s : State) (body : Promise (list Item)) (p : Z) :
  let failed :=
    {| data := data s; isLoading := false;
       error := Some "Could not fetch data from server. Please try again later." |} in
  handleFetch s (Normal {| ok := false; json := body |}) = Normal failed
  ∧ render failed p =
    [ErrorText "Could not fetch data from server. Please try again later."].
Proof. split; reflexivity. Qed.

(** X10: a rejected [fetch] or an unparsable body with a non-empty message ends
    in that message, shown alone on the screen; the items are not touched. *)
Theorem handleFetch_rejection_shown (s : State) (err : JsError) (p : Z) :
  message err ≠ EmptyString →
  let failed :=
    {| data := data s; isLoading := false; error := Some (message err) |} in
  handleFetch s (Throw err) = Normal failed
  ∧ handleFetch s (Normal {| ok := true; json := Throw err |}) = Normal failed
  ∧ render failed p = [ErrorText (message err)].
Proof.
  intros Hmsg. unfold handleFetch, settleAction, render. cbn.
  destruct (message err) as [| c rest]; [done |]. cbn. done.
Qed.

Lemma handleFetch_rejection_shown_witness :
  let failed :=
    {| data := []; isLoading := false; error := Some "Failed to fetch" |} in
  handleFetch initialState (Throw {| message := "Failed to fetch" |}) = Normal failed
  ∧ handleFetch initialState
      (Normal {| ok := true; json := Throw {| message := "Failed to fetch" |} |})
    = Normal failed
  ∧ render failed 1 = [ErrorText "Failed to fetch"].
Proof.
  apply (handleFetch_rejection_shown initialState
           {| message := "Failed to fetch" |} 1).
  discriminate.
Defined.

(** X11: a failure whose message is the empty string is not reported as an
    error: the result's error is falsy, so [handleFetch] dispatches OK with
    the empty list, the items held before are dropped and the screen shows
    an empty list with its controls. *)
Theorem handleFetch_empty_message (s : State) (p : Z) :
  let silent := {| message := EmptyString |} in
  let emptied := {| data := []; isLoading := false; error := None |} in
  handleFetch s (Throw silent) = Normal emptied
  ∧ handleFetch s (Normal {| ok := true; json := Throw silent |}) = Normal emptied
  ∧ render emptied p =
    [ListAndControls [] [previousButton p; nextButton p 0]].
Proof.
  repeat split.
  change (render {| data := []; isLoading := false; error := None |} p)
    with [ListAndControls
            (currentPageItems {| data := []; isLoading := false; error := None |} p)
            [previousButton p; nextButton p 0]].
  do 2 f_equal. apply length_zero_iff_nil.
  unfold currentPageItems, slice. rewrite length_take, length_drop. cbn. lia.
Qed.

(** X12: a successful load replaces the state by the parsed body; the page count
    is then the ceiling of its length over 10 and page 1 shows its first 10
    items. *)
Theorem handleFetch_success (s : State) (resData : list Item) :
  let loaded := {| data := resData; isLoading := false; error := None |} in
  handleFetch s (Normal {| ok := true; json := Normal resData |}) = Normal loaded
  ∧ 10 * (totalPages loaded - 1) < Z.of_nat (length resData) ≤ 10 * totalPages loaded
  ∧ currentPageItems loaded 1 = take 10 resData.
Proof.
  intros loaded. split; [reflexivity |]. split.
  - apply (totalPages_bounds loaded).
  - rewrite currentPageItems_take_drop by lia. reflexivity.
Qed.

(** ** Navigation *)

(** X13: inside the pages, Next and Previous undo each other. *)
Theorem pressNext_pressPrevious (total p : Z) :
  1 ≤ p < total →
  pressPrevious (pressNext total p) = p
  ∧ pressNext total (pressPrevious (p + 1)) = p + 1.
Proof.
  intros Hp. unfold pressPrevious, pressNext, handlePrevious, handleNext.
  destruct (Z.ltb_spec p total); [| lia]. cbn.
  destruct (Z.ltb_spec 1 (p + 1)); [| lia]. cbn.
  replace (p + 1 - 1) with p by lia.
  destruct (Z.ltb_spec p total); [| lia]. done.
Qed.

Lemma pressNext_pressPrevious_witness :
  pressPrevious (pressNext 3 2) = 2
  ∧ pressNext 3 (pressPrevious (2 + 1)) = 2 + 1.
Proof. apply (pressNext_pressPrevious 3 2). lia. Defined.

(** X14: pressing Next [k] times from a page not past the last one moves [k]
    pages on and stops at the last page. *)
Theorem pressNext_iter (total p : Z) (k : nat) :
  p ≤ total →
  Nat.iter k (pressNext total) p = Z.min (p + Z.of_nat k) total.
Proof.
  intros Hp. induction k as [| k IH]; [cbn; lia |].
  rewrite Nat.iter_succ, IH.
  unfold pressNext, handleNext.
  destruct (Z.ltb_spec (Z.min (p + Z.of_nat k) total) total); cbn; lia.
Qed.

Lemma pressNext_iter_witness :
  Nat.iter 5 (pressNext 3) 1 = Z.min (1 + Z.of_nat 5) 3.
Proof. apply (pressNext_iter 3 1 5). lia. Defined.

(** X15: pressing Previous [k] times from a page index of at least 1 moves [k]
    pages back and stops at page 1. *)
Theorem pressPrevious_iter (p : Z) (k : nat) :
  1 ≤ p →
  Nat.iter k pressPrevious p = Z.max (p - Z.of_nat k) 1.
Proof.
  intros Hp. induction k as [| k IH]; [cbn; lia |].
  rewrite Nat.iter_succ, IH.
  unfold pressPrevious, handlePrevious.
  destruct (Z.ltb_spec 1 (Z.max (p - Z.of_nat k) 1)); cbn; lia.
Qed.

Lemma pressPrevious_iter_witness :
  Nat.iter 5 pressPrevious 3 = Z.max (3 - Z.of_nat 5) 1.
Proof. apply (pressPrevious_iter 3 5). lia. Defined.

(** X16: on a page index from 1 to the page count, each edge control is disabled
    exactly when its handler would leave the page index alone. *)
Theorem edge_buttons_match_handlers (total p : Z) :
  1 ≤ p ≤ total →
  (disabled (previousButton p) = true ↔ handlePrevious p = None)
  ∧ (disabled (nextButton p total) = true ↔ handleNext p total = None).
Proof.
  intros Hp. cbn. unfold handlePrevious, handleNext.
  rewrite !Z.eqb_eq.
  destruct (Z.ltb_spec 1 p), (Z.ltb_spec p total);
    (split; split; intros H'; try done; lia).
Qed.

Lemma edge_buttons_match_handlers_witness :
  (disabled (previousButton 1) = true ↔ handlePrevious 1 = None)
  ∧ (disabled (nextButton 1 3) = true ↔ handleNext 1 3 = None).
Proof. apply (edge_buttons_match_handlers 3 1). lia. Defined.

(** X17: every numbered control stands for a page from 1 to the page count: it
    is never disabled, a click on it sets the page index to its number, and
    it is marked active exactly when that number is the current page. *)
Theorem numberedButtons_elem (total p : Z) (b : Button) :
  b ∈ numberedButtons p total →
  ∃ n, 1 ≤ n ≤ total
       ∧ text b = PageNumber n
       ∧ disabled b = false
       ∧ click b p = n
       ∧ (marked b = true ↔ p = n).
Proof.
  unfold numberedButtons. change (map ?f ?l) with (f <$> l).
  intros (index & -> & Hindex)%list_elem_of_fmap.
  apply elem_of_seq in Hindex.
  exists (Z.of_nat index + 1). cbn.
  repeat split; try lia; apply Z.eqb_eq; done.
Qed.

Lemma numberedButtons_elem_witness :
  ∃ n, 1 ≤ n ≤ 3
       ∧ text {| text := PageNumber 2; marked := true; disabled := false;
                 onClick := Some 2 |} = PageNumber n
       ∧ disabled {| text := PageNumber 2; marked := true; disabled := false;
                     onClick := Some 2 |} = false
       ∧ click {| text := PageNumber 2; marked := true; disabled := false;
                  onClick := Some 2 |} 2 = n
       ∧ (marked {| text := PageNumber 2; marked := true; disabled := false;
                    onClick := Some 2 |} = true ↔ 2 = n).
Proof.
  apply (numberedButtons_elem 3 2). vm_compute.
  apply list_elem_of_further, list_elem_of_here.
Defined.

Lemma marked_in_seq (p : Z) (start len : nat) :
  length
    (filter (fun b => marked b = true)
       (map (fun index : nat =>
               {| text := PageNumber (Z.of_nat index + 1);
                  marked := p =? Z.of_nat index + 1;
                  disabled := false;
                  onClick := handlePageClick (Z.of_nat index + 1) |})
            (seq start len)))
  = if decide (Z.of_nat start + 1 ≤ p ≤ Z.of_nat start + Z.of_nat len)
    then 1%nat else 0%nat.
Proof.
  revert start. induction len as [| len IH]; intros start.
  - cbn. destruct (decide _); [lia | done].
  - cbn [seq map]. rewrite filter_cons. cbn [marked].
    specialize (IH (S start)).
    destruct (decide ((p =? Z.of_nat start + 1) = true)) as [Heq | Hne].
    + apply Z.eqb_eq in Heq. cbn [length]. rewrite IH.
      repeat destruct (decide _); lia.
    + rewrite Z.eqb_eq in Hne. rewrite IH.
      repeat destruct (decide _); lia.
Qed.

(** X18: exactly one numbered control is marked active when the page index is a
    page from 1 to the page count, and none is otherwise. *)
Theorem numberedButtons_one_active (total p : Z) :
  length (filter (fun b => marked b = true) (numberedButtons p total))
  = if decide (1 ≤ p ≤ total) then 1%nat else 0%nat.
Proof.
  unfold numberedButtons. rewrite marked_in_seq.
  repeat destruct (decide _); lia.
Qed.

(** ** The component over its life *)

Lemma step_lifecycle (v v' : View) :
  step v v' → lifecycle v → lifecycle v'.
Proof.
  unfold lifecycle.
  intros [v0 Heff | v0 fetch r Heff Hr | v0 | v0 | v0 n Hn]; cbn; try done.
  - rewrite Heff. intros ->. reflexivity.
  - rewrite Heff. intros ->. unfold settleAction.
    destruct (truthy (Result.error r)) eqn:Htruthy; cbn; auto.
Qed.

Lemma reachable_lifecycle (v : View) : reachable v → lifecycle v.
Proof.
  unfold reachable. revert v. apply rtc_ind_r.
  - reflexivity.
  - intros v v' _ Hstep IH. eauto using step_lifecycle.
Qed.

Lemma awaitingView_reachable : reachable awaitingView.
Proof.
  unfold reachable.
  eapply rtc_l; [apply step_loading; reflexivity |]. apply rtc_refl.
Qed.

Lemma failedView_reachable : reachable failedView.
Proof.
  unfold reachable.
  eapply rtc_l; [apply step_loading; reflexivity |].
  eapply rtc_l;
    [apply (step_settle _ (Throw {| message := "Failed to fetch" |})
              {| Result.error := Some "Failed to fetch"; Result.data := [] |});
     reflexivity |].
  apply rtc_refl.
Qed.

Lemma secondPageView_reachable : reachable secondPageView.
Proof.
  unfold reachable.
  eapply rtc_l; [apply step_loading; reflexivity |].
  eapply rtc_l;
    [apply (step_settle _ (Normal {| ok := true; json := Normal twentyFiveItems |})
              {| Result.error := None; Result.data := twentyFiveItems |});
     reflexivity |].
  eapply rtc_l; [apply step_next |].
  apply rtc_refl.
Qed.

(** X19: the loading indicator is on exactly while the fetch is awaited, and it
    is then the only thing on the screen. *)
Theorem loading_iff_awaiting (v : View) :
  reachable v →
  (isLoading (state v) = true ↔ effect v = Awaiting)
  ∧ (effect v = Awaiting → render (state v) (pagination v) = [LoadingText]).
Proof.
  intros Hlife%reachable_lifecycle. unfold lifecycle in Hlife.
  destruct (effect v); split; try done.
  - rewrite Hlife. done.
  - rewrite Hlife. done.
  - intros _. rewrite Hlife. reflexivity.
  - destruct Hlife as [-> _]. done.
Qed.

Lemma loading_iff_awaiting_witness :
  (isLoading (state awaitingView) = true ↔ effect awaitingView = Awaiting)
  ∧ (effect awaitingView = Awaiting →
     render (state awaitingView) (pagination awaitingView) = [LoadingText]).
Proof. apply loading_iff_awaiting, awaitingView_reachable. Defined.

(** X20: in the running component an error never comes with items: whenever the
    error is not null it is truthy, so it is shown, and the list is empty. *)
Theorem reachable_error_no_items (v : View) :
  reachable v →
  error (state v) ≠ None →
  truthy (error (state v)) = true ∧ data (state v) = [].
Proof.
  intros Hlife%reachable_lifecycle Herr. unfold lifecycle in Hlife.
  destruct (effect v).
  - rewrite Hlife in Herr. done.
  - rewrite Hlife in Herr. done.
  - destruct Hlife as [_ [Hnone | Hshown]]; done.
Qed.

Lemma reachable_error_no_items_witness :
  truthy (error (state failedView)) = true ∧ data (state failedView) = [].
Proof.
  apply reachable_error_no_items; [apply failedView_reachable | discriminate].
Defined.

(** X21: while there are no items (before the load, after a failed load, or
    after an empty load) the page index is 1. *)
Theorem reachable_no_items_first_page (v : View) :
  reachable v →
  data (state v) = [] →
  pagination v = 1.
Proof.
  intros [Hrange _]%reachable_invariant Hdata.
  unfold page_in_range in Hrange.
  rewrite (totalPages_no_data _ Hdata) in Hrange. lia.
Qed.

Lemma reachable_no_items_first_page_witness : pagination failedView = 1.
Proof.
  apply reachable_no_items_first_page; [apply failedView_reachable | reflexivity].
Defined.

(** X22: once items are loaded the user never lands on a blank page: the page
    index always points at a page that shows at least one item. *)
Theorem reachable_page_has_items (v : View) :
  reachable v →
  data (state v) ≠ [] →
  currentPageItems (state v) (pagination v) ≠ [].
Proof.
  intros [Hrange _]%reachable_invariant Hdata Hnil.
  unfold page_in_range in Hrange.
  pose proof (totalPages_bounds (state v)) as Hb.
  assert (0 < Z.of_nat (length (data (state v)))) as Hpos.
  { destruct (data (state v)); [done | cbn; lia]. }
  assert (Hlen : Z.of_nat (length (currentPageItems (state v) (pagination v))) = 0)
    by now rewrite Hnil.
  unfold currentPageItems, itemsPerPage in Hlen.
  rewrite slice_length in Hlen by lia. lia.
Qed.

Lemma reachable_page_has_items_witness :
  currentPageItems (state secondPageView) (pagination secondPageView) ≠ [].
Proof.
  apply reachable_page_has_items; [apply secondPageView_reachable | discriminate].
Defined.
